(** * GRand: a shallow embedding of class [GRand] (grand.h, version 1.1.1)

    [GRand] wraps a [std::mt19937] together with a flag [_seed_needed];
    the engine is seeded from [std::random_device] lazily, by [ck_seed],
    at the start of every sampling member function.

    The engine and the three standard distributions are library code.  The
    engine is a section variable (its type, [seed] and [operator()]); each
    distribution is its constructor's precondition from the C++ standard
    (a violated precondition is undefined behaviour, modelled by [None])
    followed by an abstract sampler, whose range contract is a section
    hypothesis wherever a theorem needs it.  [double] is Rocq's primitive
    binary64 [float]. *)

From Stdlib Require Import ZArith Bool List Lia Floats.
Import ListNotations.

Open Scope Z_scope.


(** [std::numeric_limits<double>::max()] *)
Definition max_double : float := 0x1.fffffffffffffp+1023%float.

(** A concrete engine and samplers, used to instantiate the model at
    explicit inputs.  The engine is a 32-bit linear congruential generator;
    the samplers are crude but meet the standard's range contracts. *)
Module Toy.

Definition Engine : Type := Z.

Definition seed (s : Z) : Engine := s.

Definition next (g : Engine) : Z * Engine := (g, (1103515245 * g + 12345) mod 2 ^ 32).

Definition uniform_int (a b : Z) (g : Engine) : Z * Engine :=
  (a + g mod (b - a + 1), snd (next g)).

Definition uniform_real (a b : float) (g : Engine) : float * Engine :=
  (a, snd (next g)).

Definition bernoulli (p : float) (g : Engine) : bool * Engine :=
  (true, snd (next g)).

End Toy.

(** ** The model of class [GRand] *)

Section GRandModel.

(** [rng_type] is [std::mt19937]: its state type, the constructor and
    [seed] member taking a [result_type], and [operator()]. *)
Variable Engine : Type.
Variable mt19937_seed : Z -> Engine.
Variable mt19937_next : Engine -> Z * Engine.

(** The samplers of [std::uniform_int_distribution<IntType>(a, b)],
    [std::uniform_real_distribution<double>(a, b)] and
    [std::bernoulli_distribution(p)] applied to the engine. *)
Variable uniform_int_sample : Z -> Z -> Engine -> Z * Engine.
Variable uniform_real_sample : float -> float -> Engine -> float * Engine.
Variable bernoulli_sample : float -> Engine -> bool * Engine.

(** The value [rng_type::result_type(s)] as the engine uses it.
    [result_type] ([uint_fast32_t]) has at least 32 bits, and
    [mt19937::seed(value)] keeps [value mod 2^32] (word size 32), so the
    conversion followed by seeding depends only on [s mod 2^32]; this
    definition folds the engine's reduction into the conversion. *)
Definition result_type (s : Z) : Z := s mod 2 ^ 32.

(** [std::mt19937::default_seed]: a default-constructed engine [_rng()]
    is seeded with it. *)
Definition default_seed : Z := 5489.

(** The data members of [GRand]. *)
Record GRand := mkGRand {
  _seed_needed : bool;
  _rng : Engine
}.

(** The instance together with the environment's [std::random_device]:
    [device k] is the value of the [k]-th invocation, [draws] the number of
    invocations so far (each one is a nondeterministic seeding event). *)
Record World := mkWorld {
  obj : GRand;
  device : nat -> Z;
  draws : nat
}.

(** Member functions run in a state monad over [World] that can stop with
    undefined behaviour ([None]). *)
Definition M (A : Type) : Type := World -> option (A * World).

Definition ret {A} (a : A) : M A := fun w => Some (a, w).

Definition bind {A B} (m : M A) (f : A -> M B) : M B :=
  fun w => match m w with
           | Some (a, w') => f a w'
           | None => None
           end.

Notation "x <- m ;; k" := (bind m (fun x => k)) (at level 61, m at next level, right associativity).
Notation "m ;;; k" := (bind m (fun _ => k)) (at level 61, right associativity).

Definition set_seed_needed (b : bool) : M unit :=
  fun w => Some (tt, mkWorld (mkGRand b (_rng (obj w))) (device w) (draws w)).

Definition get_seed_needed : M bool :=
  fun w => Some (_seed_needed (obj w), w).

(** [_rng.seed(rng_type::result_type(s))] *)
Definition rng_seed (s : Z) : M unit :=
  fun w => Some (tt, mkWorld (mkGRand (_seed_needed (obj w)) (mt19937_seed (result_type s)))
                             (device w) (draws w)).

(** Run a sampler on [_rng], storing the advanced engine back. *)
Definition with_rng {A} (f : Engine -> A * Engine) : M A :=
  fun w => let (a, g) := f (_rng (obj w)) in
           Some (a, mkWorld (mkGRand (_seed_needed (obj w)) g) (device w) (draws w)).

(** [std::random_device()()], for an environment that has an entropy
    source: the [n]-th value drawn is [device n].  Where no entropy source
    exists, [std::random_device] throws; that environment is not modelled
    here, so statements about normal return only cover calls that draw no
    entropy (see C9). *)
Definition random_device : M Z :=
  fun w => Some (device w (draws w), mkWorld (obj w) (device w) (S (draws w))).

(** A distribution object: its constructor either violates the standard's
    precondition ([None]) or yields the sampler that [dist(_rng)] runs. *)
Definition dist (A : Type) : Type := option (Engine -> A * Engine).

Definition apply_dist {A} (D : dist A) : M A :=
  match D with
  | Some f => with_rng f
  | None => fun _ => None
  end.

(** [uniform_int_distribution(a, b)] requires [a <= b]. *)
Definition uniform_int_distribution (a b : Z) : dist Z :=
  if a <=? b then Some (uniform_int_sample a b) else None.

(** [uniform_real_distribution(a, b)] requires [a <= b] and
    [b - a <= numeric_limits<double>::max()]. *)
Definition uniform_real_distribution (a b : float) : dist float :=
  if ((a <=? b) && (b - a <=? max_double))%float
  then Some (uniform_real_sample a b) else None.

(** [bernoulli_distribution(p)] requires [0 <= p <= 1]. *)
Definition bernoulli_distribution (p : float) : dist bool :=
  if ((0 <=? p) && (p <=? 1))%float then Some (bernoulli_sample p) else None.

(** Constructors. *)
Definition GRand_default : GRand := mkGRand true (mt19937_seed default_seed).

Definition GRand_seeded (s : Z) : GRand := mkGRand false (mt19937_seed (result_type s)).

(** [ck_seed] *)
Definition ck_seed : M unit :=
  needed <- get_seed_needed ;;
  if negb needed then ret tt
  else set_seed_needed false ;;;
       v <- random_device ;;
       rng_seed v.

(** [seed()] *)
Definition seed0 : M unit := set_seed_needed true.

(** [seed(s)] *)
Definition seed (s : Z) : M unit :=
  set_seed_needed false ;;;
  rng_seed s.

(** [operator()(IntType n)] *)
Definition call_n (n : Z) : M Z :=
  ck_seed ;;;
  if n <=? 0 then ret 0
  else apply_dist (uniform_int_distribution 0 (n - 1)).

(** [i(int n)] *)
Definition i (n : Z) : M Z := call_n n.

(** [d(double d)] *)
Definition d (x : float) : M float :=
  ck_seed ;;;
  if (0 <? x)%float then apply_dist (uniform_real_distribution 0 x)
  else if (x <? 0)%float then
    r <- apply_dist (uniform_real_distribution 0 (- x)) ;;
    ret (- r)%float
  else ret 0%float.

(** [b(double p)] *)
Definition b (p : float) : M bool :=
  ck_seed ;;;
  if (p <=? 0)%float then ret false
  else if (1 <=? p)%float then ret true
  else apply_dist (bernoulli_distribution p).

(** [operator()()] *)
Definition call0 : M Z :=
  ck_seed ;;;
  with_rng mt19937_next.

(** ** Call sequences *)

Inductive call : Type :=
| Seed0
| SeedWith (s : Z)
| CallI (n : Z)
| CallD (x : float)
| CallB (p : float)
| CallRaw
| CallN (n : Z).

Inductive out : Type :=
| OUnit
| OInt (z : Z)
| ODouble (x : float)
| OBool (v : bool)
| ORaw (z : Z).

Definition is_sampling (c : call) : bool :=
  match c with
  | Seed0 | SeedWith _ => false
  | _ => true
  end.

Definition exec (c : call) : M out :=
  match c with
  | Seed0 => seed0 ;;; ret OUnit
  | SeedWith s => seed s ;;; ret OUnit
  | CallI n => z <- i n ;; ret (OInt z)
  | CallD x => r <- d x ;; ret (ODouble r)
  | CallB p => v <- b p ;; ret (OBool v)
  | CallRaw => z <- call0 ;; ret (ORaw z)
  | CallN n => z <- call_n n ;; ret (OInt z)
  end.

Fixpoint run (cs : list call) : M (list out) :=
  match cs with
  | [] => ret []
  | c :: cs' => o <- exec c ;; os <- run cs' ;; ret (o :: os)
  end.

(** ** Auxiliary definitions for the statements *)

(** The world after [ck_seed] has run. *)
Definition ck_world (w : World) : World :=
  if _seed_needed (obj w)
  then mkWorld (mkGRand false (mt19937_seed (result_type (device w (draws w)))))
               (device w) (S (draws w))
  else w.

(** A finite [double]: [-max() <= x <= max()]. *)
Definition is_finite_double (x : float) : bool :=
  ((- max_double <=? x) && (x <=? max_double))%float.

(** Calls on which no distribution precondition can be violated: every
    call except [d] with an infinite bound and [b] with a NaN. *)
Definition call_defined (c : call) : bool :=
  match c with
  | CallD x => is_finite_double x || is_nan x
  | CallB p => negb (is_nan p)
  | _ => true
  end.

(** The default results the spec lists for degenerate parameters. *)
Definition degenerate_default (c : call) : option out :=
  match c with
  | CallI n | CallN n => if n <=? 0 then Some (OInt 0) else None
  | CallD x => if ((x =? 0)%float || is_nan x) then Some (ODouble 0%float) else None
  | CallB p =>
      if (p <=? 0)%float then Some (OBool false)
      else if (1 <=? p)%float then Some (OBool true)
      else None
  | _ => None
  end.

Fixpoint count_seed0 (cs : list call) : nat :=
  match cs with
  | [] => 0
  | Seed0 :: cs' => S (count_seed0 cs')
  | _ :: cs' => count_seed0 cs'
  end.

(** Nondeterministic seeding events expected along [cs] when [pending]
    tells whether a seed request is outstanding: one at the first sampling
    call after a request, none once an explicit seed has intervened. *)
Fixpoint lazy_seed_events (pending : bool) (cs : list call) : nat :=
  match cs with
  | [] => 0
  | Seed0 :: cs' => lazy_seed_events true cs'
  | SeedWith _ :: cs' => lazy_seed_events false cs'
  | _ :: cs' => (if pending then 1 else 0) + lazy_seed_events false cs'
  end.

(** The pending-seed state after [cs], as the claim words it: set by a
    seed request, cleared only by an explicit seed. *)
Fixpoint pending_by_claim (pending : bool) (cs : list call) : bool :=
  match cs with
  | [] => pending
  | Seed0 :: cs' => pending_by_claim true cs'
  | SeedWith _ :: cs' => pending_by_claim false cs'
  | _ :: cs' => pending_by_claim pending cs'
  end.

(** The pending-seed state after [cs]: set by a seed request, cleared by an
    explicit seed or by any sampling call. *)
Fixpoint pending_after (pending : bool) (cs : list call) : bool :=
  match cs with
  | [] => pending
  | Seed0 :: cs' => pending_after true cs'
  | _ :: cs' => pending_after false cs'
  end.

(** ** Binary64 facts used by the proofs (over [SpecFloat]) *)

Lemma SFcompare_opp : forall x y : spec_float,
  SFcompare (SFopp x) (SFopp y) = SFcompare y x.
Proof.
  intros [sx| sx| |sx mx ex] [sy| sy| |sy my ey]; simpl;
    try destruct sx; try destruct sy; simpl; try reflexivity.
  all: assert (Hp : Pos.compare_cont Eq my mx = CompOpp (Pos.compare_cont Eq mx my))
         by (rewrite Pos.compare_cont_antisym; reflexivity).
  all: rewrite (Z.compare_antisym ex ey);
       change PosDef.Pos.compare_cont with Pos.compare_cont; rewrite Hp.
  all: destruct (Z.compare ex ey), (Pos.compare_cont Eq mx my); reflexivity.
Qed.

Lemma ltb_opp : forall x y : float, (- x <? - y)%float = (y <? x)%float.
Proof.
  intros x y. rewrite !ltb_spec, !opp_spec. unfold SFltb.
  rewrite SFcompare_opp. reflexivity.
Qed.

Lemma leb_opp : forall x y : float, (- x <=? - y)%float = (y <=? x)%float.
Proof.
  intros x y. rewrite !leb_spec, !opp_spec. unfold SFleb.
  rewrite SFcompare_opp. reflexivity.
Qed.

Lemma opp_opp : forall x : float, (- - x)%float = x.
Proof.
  intros x. rewrite <- (SF2Prim_Prim2SF x) at 2.
  rewrite <- (SF2Prim_Prim2SF (- - x)). f_equal.
  rewrite !opp_spec. destruct (Prim2SF x) as [[]|[]| |[]]; reflexivity.
Qed.

Lemma sub_zero_leb : forall x y : float,
  (x - 0 <=? y)%float = (x <=? y)%float.
Proof.
  intros x y. rewrite !leb_spec, sub_spec.
  change (Prim2SF 0%float) with (S754_zero false).
  destruct (Prim2SF x) as [[]|[]| |[]]; reflexivity.
Qed.

Lemma ltb_leb : forall x y : float, (x <? y)%float = true -> (x <=? y)%float = true.
Proof.
  intros x y. rewrite ltb_spec, leb_spec. unfold SFltb, SFleb.
  destruct (SFcompare _ _) as [[]|]; congruence.
Qed.

Lemma SFcompare_swap : forall x y : spec_float,
  SFcompare y x = option_map CompOpp (SFcompare x y).
Proof.
  intros [sx| sx| |sx mx ex] [sy| sy| |sy my ey]; simpl;
    try destruct sx; try destruct sy; simpl; try reflexivity.
  all: assert (Hp : Pos.compare_cont Eq my mx = CompOpp (Pos.compare_cont Eq mx my))
         by (rewrite Pos.compare_cont_antisym; reflexivity).
  all: rewrite (Z.compare_antisym ex ey);
       change PosDef.Pos.compare_cont with Pos.compare_cont; rewrite Hp.
  all: destruct (Z.compare ex ey), (Pos.compare_cont Eq mx my); reflexivity.
Qed.

Ltac to_spec :=
  rewrite ?ltb_spec, ?leb_spec, ?eqb_spec, ?opp_spec, ?sub_spec in *;
  change (Prim2SF 0%float) with (S754_zero false) in *;
  change (Prim2SF 1%float) with (S754_finite false 4503599627370496 (-52)) in *;
  change (Prim2SF max_double) with (S754_finite false 9007199254740991 971) in *.

Lemma ltb_zero_opp : forall x : float, (0 <? - x)%float = (x <? 0)%float.
Proof. intros x. to_spec. destruct (Prim2SF x) as [[]|[]| |[] m e]; reflexivity. Qed.

Lemma leb_opp_zero : forall x : float, (- x <=? 0)%float = (0 <=? x)%float.
Proof. intros x. to_spec. destruct (Prim2SF x) as [[]|[]| |[] m e]; reflexivity. Qed.

Lemma eqb_zero_not_lt : forall x : float, (x =? 0)%float = true ->
  (0 <? x)%float = false /\ (x <? 0)%float = false.
Proof.
  intros x. to_spec. destruct (Prim2SF x) as [[]|[]| |[] m e]; simpl;
    intros H; try discriminate; split; reflexivity.
Qed.

Lemma nan_not_lt : forall x : float, is_nan x = true ->
  (0 <? x)%float = false /\ (x <? 0)%float = false.
Proof.
  intros x. unfold is_nan. to_spec.
  unfold SFeqb. destruct (Prim2SF x) as [[]|[]| |[] m e]; simpl; intros H;
    try discriminate; try (split; reflexivity).
  all: rewrite Z.compare_refl, Pos.compare_cont_refl in H; discriminate.
Qed.

Lemma one_le_not_le_zero : forall p : float, (1 <=? p)%float = true -> (p <=? 0)%float = false.
Proof.
  intros p. to_spec. destruct (Prim2SF p) as [[]|[]| |[] m e]; simpl;
    intros H; first [reflexivity | discriminate].
Qed.

Lemma SFcompare_None : forall x y : spec_float,
  SFcompare x y = None -> x = S754_nan \/ y = S754_nan.
Proof.
  intros [sx| sx| |sx mx ex] [sy| sy| |sy my ey]; simpl; intros H;
    solve [discriminate | left; reflexivity | right; reflexivity].
Qed.

Lemma SFleb_total : forall x y : spec_float, x <> S754_nan -> y <> S754_nan ->
  SFleb x y = false -> SFleb y x = true.
Proof.
  intros x y Hx Hy. unfold SFleb. rewrite (SFcompare_swap x y).
  destruct (SFcompare x y) as [[]|] eqn:E; simpl; intros H;
    try discriminate; try reflexivity.
  destruct (SFcompare_None x y E); contradiction.
Qed.

Lemma not_nan_spec : forall x : float, is_nan x = false -> Prim2SF x <> S754_nan.
Proof.
  intros x. unfold is_nan. to_spec. intros H E. rewrite E in H. discriminate.
Qed.

Lemma open_unit_le : forall p : float, is_nan p = false ->
  (p <=? 0)%float = false -> (1 <=? p)%float = false ->
  ((0 <=? p) && (p <=? 1))%float = true.
Proof.
  intros p Hn H0 H1. apply not_nan_spec in Hn. to_spec.
  assert (Z0 : S754_zero false <> S754_nan) by discriminate.
  assert (O1 : S754_finite false 4503599627370496 (-52) <> S754_nan) by discriminate.
  rewrite (SFleb_total _ _ Hn Z0 H0), (SFleb_total _ _ O1 Hn H1). reflexivity.
Qed.

Lemma ltb_leb_refl : forall x y : float, (x <? y)%float = true -> (x <=? x)%float = true.
Proof.
  intros x y. to_spec. unfold SFltb, SFleb.
  destruct (Prim2SF x) as [[]|[]| |[] m e]; simpl; intros H;
    try reflexivity; try discriminate.
  all: rewrite Z.compare_refl, Pos.compare_cont_refl; reflexivity.
Qed.


Lemma ltb_not_leb : forall x y : float, (x <? y)%float = true -> (y <=? x)%float = false.
Proof.
  intros x y. to_spec. unfold SFltb, SFleb. rewrite (SFcompare_swap (Prim2SF x)).
  destruct (SFcompare _ _) as [[]|]; simpl; congruence.
Qed.

Lemma ltb_opp_zero : forall x : float, (- x <? 0)%float = (0 <? x)%float.
Proof. intros x. to_spec. destruct (Prim2SF x) as [[]|[]| |[] m e]; reflexivity. Qed.

Lemma ltb_not_ltb : forall x y : float, (x <? y)%float = true -> (y <? x)%float = false.
Proof.
  intros x y. to_spec. unfold SFltb. rewrite (SFcompare_swap (Prim2SF x)).
  destruct (SFcompare _ _) as [[]|]; simpl; congruence.
Qed.

(** ** Lazy seeding *)

Lemma ck_seed_spec : forall w, ck_seed w = Some (tt, ck_world w).
Proof. intros [[[] g] dev n]; reflexivity. Qed.

Lemma bind_ck_seed : forall A (k : M A) w, (ck_seed ;;; k) w = k (ck_world w).
Proof. intros A k w. unfold bind. rewrite ck_seed_spec. reflexivity. Qed.

Lemma ck_world_flag : forall w, _seed_needed (obj (ck_world w)) = false.
Proof. intros [[[] g] dev n]; reflexivity. Qed.

Lemma ck_world_idle : forall w, _seed_needed (obj w) = false -> ck_world w = w.
Proof. intros [[[] g] dev n] H; [discriminate | reflexivity]. Qed.

Lemma ck_world_draws : forall w,
  draws (ck_world w) = (draws w + if _seed_needed (obj w) then 1 else 0)%nat.
Proof. intros [[[] g] dev n]; simpl; lia. Qed.

Lemma ck_world_twice : forall w, ck_world (ck_world w) = ck_world w.
Proof. intros w. apply ck_world_idle, ck_world_flag. Qed.

Lemma ck_world_device : forall w, device (ck_world w) = device w.
Proof. intros [[[] g] dev n]; reflexivity. Qed.

Ltac run_exec H :=
  unfold exec, seed0, seed, i, call_n, d, b, call0, bind, ret, apply_dist,
    uniform_int_distribution, uniform_real_distribution, bernoulli_distribution,
    with_rng, set_seed_needed, rng_seed in H;
  rewrite ?ck_seed_spec in H; simpl in H;
  repeat match type of H with
         | context [if ?c then _ else _] => destruct c
         | context [match ?e with pair _ _ => _ end] => destruct e
         end;
  simpl in H; try discriminate H; injection H as <- <-; simpl.

(** One call: its entropy draws and the flag it leaves behind. *)
Lemma exec_step : forall c w o w', exec c w = Some (o, w') ->
  draws w' = (draws w + if is_sampling c && _seed_needed (obj w) then 1 else 0)%nat /\
  _seed_needed (obj w') = match c with Seed0 => true | _ => false end /\
  device w' = device w.
Proof.
  intros c w o w' H. destruct c; run_exec H;
    rewrite ?ck_world_flag, ?ck_world_draws, ?ck_world_device; simpl;
    repeat split; lia.
Qed.

Ltac eval_goal :=
  repeat (simpl; match goal with
         | |- context [if ?c then _ else _] =>
             lazymatch type of c with bool => destruct c end
         | |- context [uniform_int_sample ?a ?b ?g] => destruct (uniform_int_sample a b g)
         | |- context [uniform_real_sample ?a ?b ?g] => destruct (uniform_real_sample a b g)
         | |- context [bernoulli_sample ?p ?g] => destruct (bernoulli_sample p g)
         | |- context [mt19937_next ?g] => destruct (mt19937_next g)
         end); simpl.

(** With no seed pending, a sampling call neither reads nor changes the
    [random_device]. *)
Lemma exec_frame : forall c o dev1 n1 dev2 n2,
  is_sampling c = true -> _seed_needed o = false ->
  match exec c (mkWorld o dev1 n1), exec c (mkWorld o dev2 n2) with
  | Some (x1, w1), Some (x2, w2) => x1 = x2 /\ obj w1 = obj w2
  | None, None => True
  | _, _ => False
  end.
Proof.
  intros c [[] g] dev1 n1 dev2 n2 Hs Hf; [discriminate|].
  destruct c; try discriminate;
  unfold exec, i, call_n, d, b, call0, bind, ret, apply_dist,
    uniform_int_distribution, uniform_real_distribution, bernoulli_distribution,
    with_rng; rewrite !ck_seed_spec; simpl; eval_goal; auto.
Qed.

Lemma run_frame : forall cs o dev1 n1 dev2 n2,
  forallb is_sampling cs = true -> _seed_needed o = false ->
  option_map fst (run cs (mkWorld o dev1 n1)) = option_map fst (run cs (mkWorld o dev2 n2)).
Proof.
  induction cs as [|c cs IH]; intros o dev1 n1 dev2 n2 Hs Hf; [reflexivity|].
  simpl in Hs. apply andb_true_iff in Hs as [Hc Hs].
  pose proof (exec_frame c o dev1 n1 dev2 n2 Hc Hf) as Fr.
  simpl. unfold bind at 1 3.
  destruct (exec c (mkWorld o dev1 n1)) as [[x1 w1]|] eqn:E1;
  destruct (exec c (mkWorld o dev2 n2)) as [[x2 w2]|] eqn:E2;
    try contradiction; [|reflexivity].
  destruct Fr as [<- Ho].
  destruct (exec_step _ _ _ _ E1) as (_ & F1 & _).
  destruct w1 as [o1 d1 k1], w2 as [o2 d2 k2]. simpl in Ho, F1. subst o2.
  assert (Fl : _seed_needed o1 = false) by (destruct c; try discriminate; exact F1).
  specialize (IH o1 d1 k1 d2 k2 Hs Fl). unfold bind.
  destruct (run cs (mkWorld o1 d1 k1)) as [[ys1 v1]|];
  destruct (run cs (mkWorld o1 d2 k2)) as [[ys2 v2]|]; simpl in IH |- *;
    congruence.
Qed.

Lemma lazy_seed_events_bound : forall p cs,
  (lazy_seed_events p cs <= (if p then 1 else 0) + count_seed0 cs)%nat.
Proof.
  intros p cs. revert p. induction cs as [|c cs IH]; intros p; simpl; [lia|].
  destruct c; simpl; specialize (IH true) as IHt; specialize (IH false) as IHf;
    destruct p; simpl in *; lia.
Qed.

Lemma d_defined : forall x w, (is_finite_double x || is_nan x) = true ->
  exists r w', d x w = Some (r, w') /\
    (((x =? 0)%float || is_nan x) = true -> r = 0%float /\ w' = ck_world w).
Proof.
  intros x w H. unfold d. rewrite bind_ck_seed.
  destruct (is_nan x) eqn:Hnan.
  - destruct (nan_not_lt x Hnan) as [-> ->]. exists 0%float, (ck_world w).
    split; [reflexivity | auto].
  - rewrite orb_false_r in H. unfold is_finite_double in H.
    apply andb_true_iff in H as [Hlo Hhi]. rewrite orb_false_r.
    destruct (0 <? x)%float eqn:Hp; [|destruct (x <? 0)%float eqn:Hn].
    + unfold apply_dist, uniform_real_distribution.
      rewrite (ltb_leb _ _ Hp), sub_zero_leb, Hhi. unfold with_rng. simpl.
      destruct (uniform_real_sample 0 x _) as [r g].
      eexists _, _. split; [reflexivity|]. intros He.
      destruct (eqb_zero_not_lt x He) as [He' _]. congruence.
    + assert (Hp' : (0 <? - x)%float = true) by (rewrite ltb_zero_opp; exact Hn).
      assert (Hm : (- x - 0 <=? max_double)%float = true)
        by (rewrite sub_zero_leb, <- (opp_opp max_double), leb_opp; exact Hlo).
      unfold bind, apply_dist, uniform_real_distribution.
      rewrite (ltb_leb _ _ Hp'), Hm. unfold with_rng. simpl.
      destruct (uniform_real_sample 0 (- x) _) as [r g].
      eexists _, _. split; [reflexivity|]. intros He.
      destruct (eqb_zero_not_lt x He) as [_ He']. congruence.
    + exists 0%float, (ck_world w). split; [reflexivity | auto].
Qed.

Lemma b_defined : forall p w, is_nan p = false ->
  exists v w', b p w = Some (v, w') /\
    ((p <=? 0)%float = true -> v = false /\ w' = ck_world w) /\
    ((p <=? 0)%float = false -> (1 <=? p)%float = true -> v = true /\ w' = ck_world w).
Proof.
  intros p w Hn. unfold b. rewrite bind_ck_seed.
  destruct (p <=? 0)%float eqn:H0; [|destruct (1 <=? p)%float eqn:H1].
  - exists false, (ck_world w). repeat split; auto; discriminate.
  - exists true, (ck_world w). repeat split; auto; discriminate.
  - unfold apply_dist, bernoulli_distribution. rewrite (open_unit_le p Hn H0 H1).
    unfold with_rng. destruct (bernoulli_sample p _) as [v g].
    eexists _, _. split; [reflexivity|]. split; intros; discriminate.
Qed.

Lemma call_n_defined : forall n w,
  exists k w', call_n n w = Some (k, w') /\ (n <= 0 -> k = 0 /\ w' = ck_world w).
Proof.
  intros n w. unfold call_n. rewrite bind_ck_seed.
  destruct (Z.leb_spec n 0) as [Hn|Hn].
  - exists 0, (ck_world w). split; [reflexivity | auto].
  - unfold apply_dist, uniform_int_distribution.
    rewrite (proj2 (Z.leb_le 0 (n - 1)) ltac:(lia)). unfold with_rng.
    destruct (uniform_int_sample 0 (n - 1) _) as [k g].
    eexists _, _. split; [reflexivity|]. intros; lia.
Qed.

Section Contracts.

(** The C++ standard's range contracts of the two uniform distributions. *)
Hypothesis uniform_int_range : forall a b g,
  a <= b -> a <= fst (uniform_int_sample a b g) <= b.

Hypothesis uniform_real_range : forall a b g,
  (a <? b)%float = true -> (b - a <=? max_double)%float = true ->
  (a <=? fst (uniform_real_sample a b g))%float = true /\
  (fst (uniform_real_sample a b g) <? b)%float = true.

(** C1: [i(n)] returns [0] when [n <= 0] and a value of [{0, ..., n-1}]
    when [n > 0]; it never runs into undefined behaviour. *)
Theorem i_range : forall n w,
  match i n w with
  | Some (k, _) => (n <= 0 -> k = 0) /\ (0 < n -> 0 <= k <= n - 1)
  | None => False
  end.
Proof.
  intros n w. unfold i, call_n. rewrite bind_ck_seed.
  destruct (Z.leb_spec n 0) as [Hn|Hn].
  - unfold ret. split; [reflexivity | lia].
  - unfold apply_dist, uniform_int_distribution.
    rewrite (proj2 (Z.leb_le 0 (n - 1)) ltac:(lia)). unfold with_rng.
    pose proof (uniform_int_range 0 (n - 1) (_rng (obj (ck_world w))) ltac:(lia)) as R.
    destruct (uniform_int_sample 0 (n - 1) _) as [k g]. simpl in R.
    split; lia.
Qed.

(** C2 (amended): for every finite bound [x], [d(x)] returns a value of
    [[0, x)] when [x > 0]; when [x < 0] it returns the negation of a sample
    of [[0, -x)], which lies in [(x, 0]]; and it returns [0.0] exactly when
    [x == 0].  (An infinite bound violates the precondition of
    [uniform_real_distribution].) *)
Theorem d_range : forall x w, is_finite_double x = true ->
  match d x w with
  | Some (r, _) =>
      ((0 <? x)%float = true -> (0 <=? r)%float = true /\ (r <? x)%float = true) /\
      ((x <? 0)%float = true ->
         (x <? r)%float = true /\ (r <=? 0)%float = true /\
         r = (- fst (uniform_real_sample 0 (- x) (_rng (obj (ck_world w)))))%float) /\
      ((x =? 0)%float = true -> r = 0%float)
  | None => False
  end.
Proof.
  intros x w Hf. unfold is_finite_double in Hf.
  apply andb_true_iff in Hf as [Hlo Hhi].
  unfold d. rewrite bind_ck_seed.
  destruct (0 <? x)%float eqn:Hp; [|destruct (x <? 0)%float eqn:Hn].
  - unfold apply_dist, uniform_real_distribution.
    rewrite (ltb_leb _ _ Hp), sub_zero_leb, Hhi. unfold with_rng.
    assert (Hm : (x - 0 <=? max_double)%float = true) by (rewrite sub_zero_leb; exact Hhi).
    pose proof (uniform_real_range 0 x (_rng (obj (ck_world w))) Hp Hm) as [R1 R2].
    simpl. destruct (uniform_real_sample 0 x (_rng (obj (ck_world w)))) as [r g].
    simpl in R1, R2 |- *.
    split; [|split].
    + intros _. split; assumption.
    + intros Hn. rewrite (ltb_not_ltb _ _ Hp) in Hn. discriminate.
    + intros He. destruct (eqb_zero_not_lt x He) as [He' _]. congruence.
  - assert (Hp' : (0 <? - x)%float = true) by (rewrite ltb_zero_opp; exact Hn).
    assert (Hm' : (- x <=? max_double)%float = true)
      by (rewrite <- (opp_opp max_double), leb_opp; exact Hlo).
    assert (Hm : (- x - 0 <=? max_double)%float = true) by (rewrite sub_zero_leb; exact Hm').
    unfold bind, apply_dist, uniform_real_distribution.
    rewrite (ltb_leb _ _ Hp'), Hm. unfold with_rng.
    pose proof (uniform_real_range 0 (- x) (_rng (obj (ck_world w))) Hp' Hm) as [R1 R2].
    simpl. destruct (uniform_real_sample 0 (- x) (_rng (obj (ck_world w)))) as [s g] eqn:E.
    simpl in R1, R2 |- *.
    split; [|split].
    + intros H. discriminate.
    + intros _. split; [|split].
      * rewrite <- (opp_opp x) at 1. rewrite ltb_opp. exact R2.
      * rewrite leb_opp_zero. exact R1.
      * reflexivity.
    + intros He. destruct (eqb_zero_not_lt x He) as [_ He']. congruence.
  - unfold ret. simpl. split; [|split]; intros H; try discriminate; reflexivity.
Qed.

End Contracts.

(** C3: two instances constructed with the same explicit seed [s] return
    the same results for the same sequence of sampling calls, whatever
    their [random_device] environments. *)
Theorem explicit_seed_deterministic : forall s cs dev1 n1 dev2 n2,
  forallb is_sampling cs = true ->
  option_map fst (run cs (mkWorld (GRand_seeded s) dev1 n1)) =
  option_map fst (run cs (mkWorld (GRand_seeded s) dev2 n2)).
Proof.
  intros s cs dev1 n1 dev2 n2 Hs. apply run_frame; [exact Hs | reflexivity].
Qed.

(** C4 (amended): [d(x)] with [x == 0.0] returns [0.0] and samples
    nothing: the call changes the state only through [ck_seed], so it
    leaves the state unchanged when no seed is pending, and a repeated call
    leaves it unchanged. *)
Theorem d_zero_no_sampling : forall x w, (x =? 0)%float = true ->
  d x w = Some (0%float, ck_world w) /\
  (_seed_needed (obj w) = false -> ck_world w = w) /\
  d x (ck_world w) = Some (0%float, ck_world w).
Proof.
  intros x w H. destruct (eqb_zero_not_lt x H) as [Hp Hn].
  unfold d. rewrite !bind_ck_seed, Hp, Hn, ck_world_twice.
  split; [reflexivity | split; [apply ck_world_idle | reflexivity]].
Qed.

(** C5 (amended): along any call sequence, the number of nondeterministic
    seeding events is one per seed request (construction without seed or
    [seed()]) that is followed by a sampling call before any explicit seed,
    occurring at that first sampling call; so never more than one per
    request. *)
Theorem entropy_seeding_events : forall cs w os w',
  run cs w = Some (os, w') ->
  draws w' = (draws w + lazy_seed_events (_seed_needed (obj w)) cs)%nat /\
  (lazy_seed_events (_seed_needed (obj w)) cs <=
     (if _seed_needed (obj w) then 1 else 0) + count_seed0 cs)%nat.
Proof.
  intros cs w os w' H. split; [|apply lazy_seed_events_bound].
  revert w os H. induction cs as [|c cs IH]; intros w os H.
  - simpl in H. injection H as _ <-. simpl. lia.
  - simpl in H. unfold bind at 1 in H.
    destruct (exec c w) as [[o1 w1]|] eqn:E; [|discriminate].
    unfold bind in H. destruct (run cs w1) as [[os1 w2]|] eqn:E2; [|discriminate].
    injection H as _ <-.
    destruct (exec_step _ _ _ _ E) as (D & F & _).
    specialize (IH w1 os1 E2). rewrite F in IH. rewrite IH, D.
    destruct c; destruct (_seed_needed (obj w)); simpl; lia.
Qed.

(** C6: a default-constructed instance given [seed(s)] before any sampling
    is in the same state as one constructed with [s], so every later call
    sequence gives the same results. *)
Theorem default_then_seed : forall s cs dev n,
  (seed s ;;; run cs) (mkWorld GRand_default dev n) =
  run cs (mkWorld (GRand_seeded s) dev n).
Proof. intros s cs dev n. reflexivity. Qed.

(** C7 (amended): [b(p)] returns [false] when [p <= 0] and [true] when
    [p >= 1], sampling nothing (the state changes only through [ck_seed],
    so not at all when no seed is pending); for [0 < p < 1] it draws from
    [bernoulli_distribution(p)]. *)
Theorem b_cases : forall p w,
  ((p <=? 0)%float = true -> b p w = Some (false, ck_world w)) /\
  ((1 <=? p)%float = true -> b p w = Some (true, ck_world w)) /\
  ((0 <? p)%float = true -> (p <? 1)%float = true ->
     b p w = with_rng (bernoulli_sample p) (ck_world w)) /\
  (_seed_needed (obj w) = false -> ck_world w = w).
Proof.
  intros p w. unfold b. rewrite bind_ck_seed. split; [|split; [|split]].
  - intros H. rewrite H. reflexivity.
  - intros H. rewrite (one_le_not_le_zero p H), H. reflexivity.
  - intros H0 H1. rewrite (ltb_not_leb _ _ H0), (ltb_not_leb _ _ H1).
    unfold apply_dist, bernoulli_distribution.
    rewrite (ltb_leb _ _ H0), (ltb_leb _ _ H1). reflexivity.
  - apply ck_world_idle.
Qed.

(** C8 (amended): [_seed_needed] is true exactly when, since the default
    construction or the latest [seed()], neither an explicit seed nor a
    sampling call has happened; and every sampling call produces its output
    from the state after [ck_seed], whose engine has been seeded from the
    [random_device] if a seed was pending. *)
Theorem seed_needed_tracks_requests :
  (forall cs w os w', run cs w = Some (os, w') ->
     _seed_needed (obj w') = pending_after (_seed_needed (obj w)) cs) /\
  (forall c w, is_sampling c = true ->
     exec c w = exec c (ck_world w) /\
     _seed_needed (obj (ck_world w)) = false /\
     (_seed_needed (obj w) = true ->
        _rng (obj (ck_world w)) = mt19937_seed (result_type (device w (draws w))))).
Proof.
  split.
  - induction cs as [|c cs IH]; intros w os w' H.
    + simpl in H. injection H as _ <-. reflexivity.
    + simpl in H. unfold bind at 1 in H.
      destruct (exec c w) as [[o1 w1]|] eqn:E; [|discriminate].
      unfold bind in H. destruct (run cs w1) as [[os1 w2]|] eqn:E2; [|discriminate].
      injection H as _ <-.
      destruct (exec_step _ _ _ _ E) as (_ & F & _).
      rewrite (IH w1 os1 w2 E2), F. destruct c; reflexivity.
  - intros c w Hs. split; [|split; [apply ck_world_flag|]].
    + destruct c; try discriminate;
      unfold exec, i, call_n, d, b, call0, bind;
      rewrite !ck_seed_spec; cbn beta iota; rewrite ck_world_twice; reflexivity.
    + destruct w as [[[] g] dev n]; simpl; [reflexivity | discriminate].
Qed.

(** C9 (amended): a call that draws no entropy (a seeding call, or a
    sampling call with no seed pending) returns normally on every input
    other than an infinite bound for [d] or a NaN for [b]; on the degenerate
    inputs ([n <= 0], a zero or NaN bound, [p <= 0], [p >= 1]) it returns
    the default [0], [0.0], [false] or [true] and leaves the state as it
    was.  A negative bound is not a degenerate input: [d] samples (C2).
    A sampling call with a seed pending first calls [std::random_device],
    which throws where no entropy source exists; it is not covered. *)
Theorem exec_total_defaults : forall c w, call_defined c = true ->
  (is_sampling c = true -> _seed_needed (obj w) = false) ->
  exists o w', exec c w = Some (o, w') /\
    (forall o0, degenerate_default c = Some o0 -> o = o0 /\ w' = w).
Proof.
  intros c w H Hp.
  assert (Hw : is_sampling c = true -> ck_world w = w)
    by (intros Hs; apply ck_world_idle, Hp, Hs).
  destruct c; simpl in H.
  - eexists _, _. split; [reflexivity | discriminate].
  - eexists _, _. split; [reflexivity | discriminate].
  - destruct (call_n_defined n w) as (k & w' & E & D).
    exists (OInt k), w'. unfold exec, i, bind at 1. rewrite E. split; [reflexivity|].
    simpl. intros o0. destruct (Z.leb_spec n 0) as [Hn|Hn]; intros Ho; [|discriminate].
    injection Ho as <-. destruct (D Hn) as [-> ->]. split; [reflexivity | apply Hw; reflexivity].
  - destruct (d_defined x w H) as (r & w' & E & D).
    exists (ODouble r), w'. unfold exec, bind at 1. rewrite E. split; [reflexivity|].
    simpl. intros o0. destruct ((x =? 0)%float || is_nan x) eqn:Hd; intros Ho; [|discriminate].
    injection Ho as <-. destruct (D eq_refl) as [-> ->]. split; [reflexivity | apply Hw; reflexivity].
  - apply negb_true_iff in H.
    destruct (b_defined p w H) as (v & w' & E & D0 & D1).
    exists (OBool v), w'. unfold exec, bind at 1. rewrite E. split; [reflexivity|].
    simpl. intros o0.
    destruct (p <=? 0)%float eqn:H0; [|destruct (1 <=? p)%float eqn:H1];
      intros Ho; try discriminate; injection Ho as <-.
    + destruct (D0 eq_refl) as [-> ->]. split; [reflexivity | apply Hw; reflexivity].
    + destruct (D1 eq_refl eq_refl) as [-> ->]. split; [reflexivity | apply Hw; reflexivity].
  - unfold exec, call0, bind. rewrite ck_seed_spec. unfold with_rng.
    destruct (mt19937_next _). eexists _, _. split; [reflexivity | discriminate].
  - destruct (call_n_defined n w) as (k & w' & E & D).
    exists (OInt k), w'. unfold exec, bind at 1. rewrite E. split; [reflexivity|].
    simpl. intros o0. destruct (Z.leb_spec n 0) as [Hn|Hn]; intros Ho; [|discriminate].
    injection Ho as <-. destruct (D Hn) as [-> ->]. split; [reflexivity | apply Hw; reflexivity].
Qed.

(** C10: after every sampling call ([i], [d], [b], [operator()()],
    [operator()(n)]) returns, [_seed_needed] is false. *)
Theorem sampling_clears_seed_needed : forall c w o w',
  is_sampling c = true -> exec c w = Some (o, w') -> _seed_needed (obj w') = false.
Proof.
  intros c w o w' Hs E. destruct (exec_step _ _ _ _ E) as (_ & F & _).
  rewrite F. destruct c; first [discriminate | reflexivity].
Qed.

(** ** Further properties of the member functions *)

Lemma exec_pending_entropy : forall c w, is_sampling c = true ->
  exec c w = exec c (ck_world w).
Proof.
  intros c w Hs. destruct c; try discriminate;
  unfold exec, i, call_n, d, b, call0, bind;
  rewrite !ck_seed_spec; cbn beta iota; rewrite ck_world_twice; reflexivity.
Qed.

Lemma seed_spec : forall s w,
  seed s w = Some (tt, mkWorld (GRand_seeded s) (device w) (draws w)).
Proof. intros s [[f g] dev n]. reflexivity. Qed.

Lemma bind_seed : forall A s (k : M A) w,
  (seed s ;;; k) w = k (mkWorld (GRand_seeded s) (device w) (draws w)).
Proof. intros A s k [[f g] dev n]. reflexivity. Qed.

(** A pending seed is served by the next sampling call: it behaves exactly
    as the same call on an instance constructed with [GRand(v)], [v] being
    the next [random_device] value, which it consumes. *)
Theorem pending_seed_is_entropy_seed : forall c w,
  is_sampling c = true -> _seed_needed (obj w) = true ->
  exec c w =
  exec c (mkWorld (GRand_seeded (device w (draws w))) (device w) (S (draws w))).
Proof.
  intros c w Hs Hp. rewrite (exec_pending_entropy c w Hs).
  unfold ck_world. rewrite Hp. reflexivity.
Qed.

(** [seed()] only schedules entropy seeding: an explicit [seed(s)] after it
    overrides it entirely (no entropy is drawn), and a repeated [seed()] is
    the same as one. *)
Theorem seed0_then_seed : forall s w,
  (seed0 ;;; seed s) w = seed s w /\ (seed0 ;;; seed0) w = seed0 w.
Proof. intros s [[f g] dev n]. split; reflexivity. Qed.

(** [seed(s)] erases the instance's history: after it, the results of any
    sequence of sampling calls depend only on [s], not on the state before
    the call nor on the [random_device]. *)
Theorem reseed_forgets_history : forall s cs w1 w2,
  forallb is_sampling cs = true ->
  option_map fst ((seed s ;;; run cs) w1) = option_map fst ((seed s ;;; run cs) w2).
Proof.
  intros s cs w1 w2 Hs. rewrite !bind_seed.
  apply run_frame; [exact Hs | reflexivity].
Qed.

(** A copy (compiler-generated copy constructor or assignment) of an
    instance with no pending seed runs in lockstep with the original: the
    same sampling calls give the same results, whatever [random_device]
    each one sees. *)
Theorem copy_lockstep : forall o cs dev1 n1 dev2 n2,
  _seed_needed o = false -> forallb is_sampling cs = true ->
  option_map fst (run cs (mkWorld o dev1 n1)) = option_map fst (run cs (mkWorld o dev2 n2)).
Proof. intros o cs dev1 n1 dev2 n2 Hf Hs. apply run_frame; assumption. Qed.

(** For every positive bound [x] (finite or not), [d(-x)] is [d(x)]
    negated: the same sample of [[0, x)] is drawn, with the same engine
    advance, and undefined behaviour on one side is undefined on the other. *)
Theorem d_negative_mirror : forall x w, (0 <? x)%float = true ->
  d (- x) w = match d x w with
              | Some (r, w') => Some ((- r)%float, w')
              | None => None
              end.
Proof.
  intros x w Hp. unfold d. rewrite !bind_ck_seed.
  rewrite ltb_zero_opp, (ltb_not_ltb _ _ Hp), ltb_opp_zero, Hp, opp_opp.
  unfold bind, apply_dist, uniform_real_distribution.
  destruct ((0 <=? x) && (x - 0 <=? max_double))%float; [|reflexivity].
  unfold with_rng. destruct (uniform_real_sample 0 x _). reflexivity.
Qed.

(** Seeding again with the same value replays the sequence: after
    [seed(s)] and any sampling calls, [seed(s)] followed by the same calls
    returns the same results again. *)
Theorem seed_replays : forall s cs w,
  forallb is_sampling cs = true ->
  match (seed s ;;; run cs) w with
  | Some (os, w') => option_map fst ((seed s ;;; run cs) w') = Some os
  | None => True
  end.
Proof.
  intros s cs w Hs. rewrite bind_seed.
  destruct (run cs _) as [[os w']|] eqn:E; [|exact I].
  rewrite bind_seed.
  rewrite (run_frame cs (GRand_seeded s) (device w') (draws w') (device w) (draws w) Hs
             eq_refl), E.
  reflexivity.
Qed.

(** Of several seed requests before a sample only the last counts: a
    second [seed(t)] replaces [seed(s)], and a [seed()] after [seed(s)]
    makes the next sampling call draw from an instance freshly seeded from
    [random_device], whatever [s] was. *)
Theorem last_seed_request_wins : forall s t c w,
  (seed s ;;; seed t) w = seed t w /\
  (is_sampling c = true ->
   (seed s ;;; seed0 ;;; exec c) w =
   exec c (mkWorld (GRand_seeded (device w (draws w))) (device w) (S (draws w)))).
Proof.
  intros s t c w. split.
  - rewrite bind_seed, !seed_spec. reflexivity.
  - intros Hs. rewrite bind_seed. unfold bind at 1. simpl.
    rewrite (exec_pending_entropy c _ Hs). reflexivity.
Qed.

End GRandModel.

(** ** The model at explicit inputs *)

Abbreviation toy_default := (GRand_default Toy.Engine Toy.seed).
Abbreviation toy_w0 := (mkWorld Toy.Engine toy_default (fun _ => 1000) 0).
Abbreviation toy_w1 :=
  (mkWorld Toy.Engine (GRand_seeded Toy.Engine Toy.seed 7) (fun _ => 1000) 0).
Abbreviation toy_run :=
  (run Toy.Engine Toy.seed Toy.next Toy.uniform_int Toy.uniform_real Toy.bernoulli).
Abbreviation toy_exec :=
  (exec Toy.Engine Toy.seed Toy.next Toy.uniform_int Toy.uniform_real Toy.bernoulli).

Lemma toy_uniform_int_range : forall a b g,
  a <= b -> a <= fst (Toy.uniform_int a b g) <= b.
Proof.
  intros a b g H. unfold Toy.uniform_int. simpl.
  pose proof (Z.mod_pos_bound g (b - a + 1) ltac:(lia)). lia.
Qed.

Lemma toy_uniform_real_range : forall a b g,
  (a <? b)%float = true -> (b - a <=? max_double)%float = true ->
  (a <=? fst (Toy.uniform_real a b g))%float = true /\
  (fst (Toy.uniform_real a b g) <? b)%float = true.
Proof.
  intros a b g H _. simpl. split; [exact (ltb_leb_refl a b H) | exact H].
Qed.

Lemma i_range_witness :
  (forall a b g, a <= b -> a <= fst (Toy.uniform_int a b g) <= b) /\
  match i Toy.Engine Toy.seed Toy.uniform_int 5 toy_w0 with
  | Some (k, _) => (5 <= 0 -> k = 0) /\ (0 < 5 -> 0 <= k <= 5 - 1)
  | None => False
  end.
Proof.
  split; [exact toy_uniform_int_range|].
  exact (i_range Toy.Engine Toy.seed Toy.uniform_int toy_uniform_int_range 5 toy_w0).
Defined.

Lemma d_range_witness :
  is_finite_double (-2.5)%float = true /\
  match d Toy.Engine Toy.seed Toy.uniform_real (-2.5)%float toy_w0 with
  | Some (r, _) =>
      ((0 <? -2.5)%float = true -> (0 <=? r)%float = true /\ (r <? -2.5)%float = true) /\
      ((-2.5 <? 0)%float = true ->
         (-2.5 <? r)%float = true /\ (r <=? 0)%float = true /\
         r = (- fst (Toy.uniform_real 0 (- -2.5)
                       (_rng Toy.Engine (obj Toy.Engine (ck_world Toy.Engine Toy.seed toy_w0)))))%float) /\
      ((-2.5 =? 0)%float = true -> r = 0%float)
  | None => False
  end.
Proof.
  split; [reflexivity|].
  apply (d_range Toy.Engine Toy.seed Toy.uniform_real toy_uniform_real_range).
  reflexivity.
Defined.

(** C2 refuted at [d(+inf)]: [+inf > 0.0], but
    [uniform_real_distribution(0.0, +inf)] violates its precondition. *)
Lemma d_infinite_bound_undefined :
  (0 <? infinity)%float = true /\
  d Toy.Engine Toy.seed Toy.uniform_real infinity toy_w0 = None.
Proof. split; reflexivity. Qed.

Lemma explicit_seed_deterministic_witness :
  forallb is_sampling [CallI 5; CallD 1.5; CallB 0.5; CallRaw] = true /\
  option_map fst (toy_run [CallI 5; CallD 1.5; CallB 0.5; CallRaw]
                    (mkWorld Toy.Engine (GRand_seeded Toy.Engine Toy.seed 7) (fun _ => 1) 0)) =
  option_map fst (toy_run [CallI 5; CallD 1.5; CallB 0.5; CallRaw]
                    (mkWorld Toy.Engine (GRand_seeded Toy.Engine Toy.seed 7) (fun _ => 2) 3)).
Proof.
  split; [reflexivity|].
  apply (explicit_seed_deterministic Toy.Engine Toy.seed Toy.next Toy.uniform_int
           Toy.uniform_real Toy.bernoulli 7). reflexivity.
Defined.

Lemma d_zero_no_sampling_witness :
  (0 =? 0)%float = true /\
  d Toy.Engine Toy.seed Toy.uniform_real 0%float toy_w0 =
    Some (0%float, ck_world Toy.Engine Toy.seed toy_w0) /\
  (_seed_needed Toy.Engine (obj Toy.Engine toy_w0) = false ->
     ck_world Toy.Engine Toy.seed toy_w0 = toy_w0) /\
  d Toy.Engine Toy.seed Toy.uniform_real 0%float (ck_world Toy.Engine Toy.seed toy_w0) =
    Some (0%float, ck_world Toy.Engine Toy.seed toy_w0).
Proof.
  split; [reflexivity|].
  apply (d_zero_no_sampling Toy.Engine Toy.seed Toy.uniform_real). reflexivity.
Defined.

(** C4 refuted: on a default-constructed instance, [d(0.0)] invokes the
    [random_device] and reseeds the engine. *)
Lemma d_zero_consumes_entropy_when_pending :
  match d Toy.Engine Toy.seed Toy.uniform_real 0%float toy_w0 with
  | Some (r, w') =>
      r = 0%float /\ draws Toy.Engine w' = 1%nat /\
      _rng Toy.Engine (obj Toy.Engine w') <> _rng Toy.Engine (obj Toy.Engine toy_w0)
  | None => False
  end.
Proof. vm_compute. split; [reflexivity | split; [reflexivity | discriminate]]. Qed.

Lemma entropy_seeding_events_witness :
  toy_run [CallI 5; Seed0; SeedWith 42; CallI 3; Seed0; CallRaw] toy_w0 =
    Some ([OInt 0; OUnit; OUnit; OInt 0; OUnit; ORaw 1000],
          mkWorld Toy.Engine (mkGRand Toy.Engine false 4003629569) (fun _ => 1000) 2) /\
  draws Toy.Engine (mkWorld Toy.Engine (mkGRand Toy.Engine false 4003629569) (fun _ => 1000) 2) =
    (draws Toy.Engine toy_w0 +
     lazy_seed_events true [CallI 5; Seed0; SeedWith 42; CallI 3; Seed0; CallRaw])%nat /\
  (lazy_seed_events true [CallI 5; Seed0; SeedWith 42; CallI 3; Seed0; CallRaw] <=
     1 + count_seed0 [CallI 5; Seed0; SeedWith 42; CallI 3; Seed0; CallRaw])%nat.
Proof.
  assert (E : toy_run [CallI 5; Seed0; SeedWith 42; CallI 3; Seed0; CallRaw] toy_w0 =
    Some ([OInt 0; OUnit; OUnit; OInt 0; OUnit; ORaw 1000],
          mkWorld Toy.Engine (mkGRand Toy.Engine false 4003629569) (fun _ => 1000) 2))
    by reflexivity.
  split; [exact E|].
  exact (entropy_seeding_events Toy.Engine Toy.seed Toy.next Toy.uniform_int
           Toy.uniform_real Toy.bernoulli _ _ _ _ E).
Defined.

(** C5 refuted: after default construction, [seed(42)] then [i(5)] makes
    no nondeterministic seeding event before the first sample. *)
Lemma explicit_seed_before_sample_no_entropy :
  match toy_run [SeedWith 42; CallI 5] toy_w0 with
  | Some (_, w') => draws Toy.Engine w' = 0%nat
  | None => False
  end.
Proof. vm_compute. reflexivity. Qed.

(** C7 refuted: on a default-constructed instance, [b(0.0)] returns
    [false] but invokes the [random_device] and reseeds the engine. *)
Lemma b_nonpositive_consumes_entropy_when_pending :
  match b Toy.Engine Toy.seed Toy.bernoulli 0%float toy_w0 with
  | Some (v, w') =>
      v = false /\ draws Toy.Engine w' = 1%nat /\
      _rng Toy.Engine (obj Toy.Engine w') <> _rng Toy.Engine (obj Toy.Engine toy_w0)
  | None => False
  end.
Proof. vm_compute. split; [reflexivity | split; [reflexivity | discriminate]]. Qed.

(** C8 refuted: after default construction and one [i(5)], no explicit
    seed has been applied, yet [_seed_needed] is false. *)
Lemma sampling_clears_pending_without_explicit_seed :
  match toy_run [CallI 5] toy_w0 with
  | Some (_, w') =>
      pending_by_claim true [CallI 5] = true /\
      _seed_needed Toy.Engine (obj Toy.Engine w') = false
  | None => False
  end.
Proof. vm_compute. split; reflexivity. Qed.

Lemma exec_total_defaults_witness :
  call_defined (CallB 1.5) = true /\
  (is_sampling (CallB 1.5) = true ->
   _seed_needed Toy.Engine (GRand_seeded Toy.Engine Toy.seed 7) = false) /\
  exists o w', toy_exec (CallB 1.5) toy_w1 = Some (o, w') /\
    (forall o0, degenerate_default (CallB 1.5) = Some o0 -> o = o0 /\ w' = toy_w1).
Proof.
  split; [reflexivity | split; [reflexivity|]].
  apply (exec_total_defaults Toy.Engine Toy.seed Toy.next Toy.uniform_int
           Toy.uniform_real Toy.bernoulli); reflexivity.
Defined.

(** C9 refuted at [b(NaN)]: a NaN is neither [<= 0] nor [>= 1], and
    [bernoulli_distribution(NaN)] violates its precondition. *)
Lemma b_nan_undefined :
  b Toy.Engine Toy.seed Toy.bernoulli nan toy_w0 = None.
Proof. reflexivity. Qed.

Lemma sampling_clears_seed_needed_witness :
  is_sampling (CallI 5) = true /\
  toy_exec (CallI 5) toy_w0 =
    Some (OInt 0, mkWorld Toy.Engine (mkGRand Toy.Engine false 4003629569) (fun _ => 1000) 1) /\
  _seed_needed Toy.Engine
    (obj Toy.Engine (mkWorld Toy.Engine (mkGRand Toy.Engine false 4003629569) (fun _ => 1000) 1)) = false.
Proof.
  assert (E : toy_exec (CallI 5) toy_w0 =
    Some (OInt 0, mkWorld Toy.Engine (mkGRand Toy.Engine false 4003629569) (fun _ => 1000) 1))
    by reflexivity.
  split; [reflexivity | split; [exact E|]].
  exact (sampling_clears_seed_needed Toy.Engine Toy.seed Toy.next Toy.uniform_int
           Toy.uniform_real Toy.bernoulli (CallI 5) _ _ _ eq_refl E).
Defined.

Lemma pending_seed_is_entropy_seed_witness :
  is_sampling (CallI 5) = true /\
  _seed_needed Toy.Engine (obj Toy.Engine toy_w0) = true /\
  toy_exec (CallI 5) toy_w0 =
  toy_exec (CallI 5) (mkWorld Toy.Engine (GRand_seeded Toy.Engine Toy.seed 1000)
                        (fun _ => 1000) 1).
Proof.
  split; [reflexivity | split; [reflexivity|]].
  apply (pending_seed_is_entropy_seed Toy.Engine Toy.seed Toy.next Toy.uniform_int
           Toy.uniform_real Toy.bernoulli); reflexivity.
Defined.

Lemma reseed_forgets_history_witness :
  forallb is_sampling [CallI 5; CallD 1.5; CallRaw] = true /\
  option_map fst (bind Toy.Engine (seed Toy.Engine Toy.seed 9)
                    (fun _ => toy_run [CallI 5; CallD 1.5; CallRaw]) toy_w0) =
  option_map fst (bind Toy.Engine (seed Toy.Engine Toy.seed 9)
                    (fun _ => toy_run [CallI 5; CallD 1.5; CallRaw])
                    (mkWorld Toy.Engine (GRand_seeded Toy.Engine Toy.seed 3) (fun _ => 4) 6)).
Proof.
  split; [reflexivity|].
  apply (reseed_forgets_history Toy.Engine Toy.seed Toy.next Toy.uniform_int
           Toy.uniform_real Toy.bernoulli). reflexivity.
Defined.

Lemma copy_lockstep_witness :
  _seed_needed Toy.Engine (mkGRand Toy.Engine false 77) = false /\
  forallb is_sampling [CallB 0.5; CallN 10] = true /\
  option_map fst (toy_run [CallB 0.5; CallN 10]
                    (mkWorld Toy.Engine (mkGRand Toy.Engine false 77) (fun _ => 1) 0)) =
  option_map fst (toy_run [CallB 0.5; CallN 10]
                    (mkWorld Toy.Engine (mkGRand Toy.Engine false 77) (fun _ => 2) 5)).
Proof.
  split; [reflexivity | split; [reflexivity|]].
  apply (copy_lockstep Toy.Engine Toy.seed Toy.next Toy.uniform_int
           Toy.uniform_real Toy.bernoulli); reflexivity.
Defined.

Lemma d_negative_mirror_witness :
  (0 <? 3)%float = true /\
  d Toy.Engine Toy.seed Toy.uniform_real (PrimFloat.opp 3%float) toy_w0 =
  match d Toy.Engine Toy.seed Toy.uniform_real 3%float toy_w0 with
  | Some (r, w') => Some ((- r)%float, w')
  | None => None
  end.
Proof.
  split; [reflexivity|].
  apply (d_negative_mirror Toy.Engine Toy.seed Toy.uniform_real). reflexivity.
Defined.

Lemma seed_replays_witness :
  forallb is_sampling [CallRaw; CallI 7; CallB 0.25] = true /\
  match bind Toy.Engine (seed Toy.Engine Toy.seed 42)
          (fun _ => toy_run [CallRaw; CallI 7; CallB 0.25]) toy_w0 with
  | Some (os, w') =>
      option_map fst (bind Toy.Engine (seed Toy.Engine Toy.seed 42)
                        (fun _ => toy_run [CallRaw; CallI 7; CallB 0.25]) w') = Some os
  | None => True
  end.
Proof.
  split; [reflexivity|].
  apply (seed_replays Toy.Engine Toy.seed Toy.next Toy.uniform_int
           Toy.uniform_real Toy.bernoulli). reflexivity.
Defined.

Lemma last_seed_request_wins_witness :
  is_sampling CallRaw = true /\
  bind Toy.Engine (seed Toy.Engine Toy.seed 1) (fun _ => seed Toy.Engine Toy.seed 2) toy_w0 =
  seed Toy.Engine Toy.seed 2 toy_w0 /\
  bind Toy.Engine (seed Toy.Engine Toy.seed 1)
    (fun _ => bind Toy.Engine (seed0 Toy.Engine) (fun _ => toy_exec CallRaw)) toy_w0 =
  toy_exec CallRaw (mkWorld Toy.Engine (GRand_seeded Toy.Engine Toy.seed 1000)
                      (fun _ => 1000) 1).
Proof.
  destruct (last_seed_request_wins Toy.Engine Toy.seed Toy.next Toy.uniform_int
           Toy.uniform_real Toy.bernoulli 1 2 CallRaw toy_w0) as [H1 H2].
  split; [reflexivity|]. split; [exact H1|]. exact (H2 eq_refl).
Defined.
